(** * yoastseo: the Title block instruction, the component gallery and the
      search result list

    A shallow embedding of
    - [packages/schema-blocks/src/instructions/blocks/Title.tsx]
      (the [Title] instruction: [validate], [renderable], registration),
    - the gallery shell [App] (catalog [components], [getContent],
      [navigate], [changeLanguageDirection], [componentDidUpdate], [render]),
    - the [SearchResults] component ([handleZeroResults],
      [renderNoResultsFound], [resultsToSearchItem], [render]).

    JavaScript strings are sequences of UTF-16 code units, attribute maps and
    the instruction registry are finite maps, exceptions are an explicit
    completion, and the objects a method may touch are threaded as state. *)

From Stdlib Require Import String Ascii NArith List Floats.SpecFloat DecimalString.
From stdpp Require Import base option list gmap countable.

Set Default Proof Using "Type".

(** ** JavaScript values *)

Module Js.

(** A string value: its UTF-16 code units. *)
Abbreviation jsstring := (list N).

(** The code units of an ASCII literal. *)
Definition js (s : string) : jsstring :=
  N_of_ascii <$> list_ascii_of_string s.

(** [WhiteSpace] and [LineTerminator] of ECMAScript: the code units that
    [String.prototype.trim] strips. *)
Definition isWhiteSpace (c : N) : bool :=
  ((9 <=? c) && (c <=? 13)           (* TAB, LF, VT, FF, CR *)
   || (c =? 32)                      (* SPACE *)
   || (c =? 160)                     (* NO-BREAK SPACE *)
   || (c =? 5760)                    (* OGHAM SPACE MARK *)
   || ((8192 <=? c) && (c <=? 8202)) (* EN QUAD .. HAIR SPACE *)
   || (c =? 8232) || (c =? 8233)     (* LINE / PARAGRAPH SEPARATOR *)
   || (c =? 8239)                    (* NARROW NO-BREAK SPACE *)
   || (c =? 8287)                    (* MEDIUM MATHEMATICAL SPACE *)
   || (c =? 12288)                   (* IDEOGRAPHIC SPACE *)
   || (c =? 65279))%N.               (* ZERO WIDTH NO-BREAK SPACE *)

Fixpoint trimStart (s : jsstring) : jsstring :=
  match s with
  | [] => []
  | c :: rest => if isWhiteSpace c then trimStart rest else s
  end.

Definition trimEnd (s : jsstring) : jsstring :=
  rev (trimStart (rev s)).

(** [String.prototype.trim]. *)
Definition trim (s : jsstring) : jsstring := trimEnd (trimStart s).

(** The values a property read can give: the JSON-like data a block
    attribute holds (numbers are IEEE 754 doubles), and the members of
    [Object.prototype], built-in functions and objects that a read reaches
    through the prototype chain. *)
#[local] Unset Elimination Schemes.
Inductive JsValue : Type :=
| JsUndefined
| JsNull
| JsBoolean (b : bool)
| JsNumber (x : spec_float)
| JsString (s : jsstring)
| JsArray (items : list JsValue)
| JsObject (fields : list (jsstring * JsValue))
| JsBuiltin (name : jsstring).
#[local] Set Elimination Schemes.

(** [ToBoolean]: the falsy values are undefined, null, false, +0, -0, NaN
    and the empty string. *)
Definition ToBoolean (v : JsValue) : bool :=
  match v with
  | JsUndefined | JsNull => false
  | JsBoolean b => b
  | JsNumber (S754_zero _) | JsNumber S754_nan => false
  | JsNumber _ => true
  | JsString [] => false
  | JsString (_ :: _) => true
  | JsArray _ | JsObject _ | JsBuiltin _ => true
  end.


Inductive JsError : Type :=
| TypeError.

(** How the evaluation of a call ends: with a value or with a throw. *)
Inductive Completion (A : Type) : Type :=
| Normal (a : A)
| Throw (e : JsError).
Arguments Normal {A} a.
Arguments Throw {A} e.

(** The names of the members of [Object.prototype], which every plain
    object inherits. *)
Definition objectPrototype : list jsstring :=
  [ js "constructor"; js "hasOwnProperty"; js "isPrototypeOf";
    js "propertyIsEnumerable"; js "toLocaleString"; js "toString"; js "valueOf";
    js "__defineGetter__"; js "__defineSetter__"; js "__lookupGetter__";
    js "__lookupSetter__"; js "__proto__" ].

(** The member a plain object inherits under a key, if any. *)
Definition inherited (key : jsstring) : option JsValue :=
  if bool_decide (key ∈ objectPrototype) then Some (JsBuiltin key) else None.

(** [o[key]] on a plain object with own properties [o]: the own property if
    there is one, else the member inherited from [Object.prototype], else
    undefined. *)
Definition getProperty (o : gmap jsstring JsValue) (key : jsstring) : JsValue :=
  match o !! key with
  | Some v => v
  | None => default JsUndefined (inherited key)
  end.

(** [v.trim()]: strings answer with the trimmed string; no other value has
    a callable [trim] member, so the call throws a TypeError. *)
Definition callTrim (v : JsValue) : Completion JsValue :=
  match v with
  | JsString s => Normal (JsString (trim s))
  | _ => Throw TypeError
  end.

End Js.

Import Js.

(** ** The validation result protocol *)

Module Validation.

(** Modelled from the spec: the enumeration [BlockValidation] is declared in
    [core/validation], outside the inspected files. The spec names the
    outcomes [Valid] and [MissingRequiredAttribute] and leaves the other
    kinds to the framework. *)
Inductive BlockValidation : Type :=
| Valid
| MissingRequiredAttribute
| FrameworkDefined (kind : N).

(** Modelled from the spec: the enumeration [BlockPresence] of
    [core/validation], with the levels Required, Recommended and Optional. *)
Inductive BlockPresence : Type :=
| Required
| Recommended
| Optional.

(** A block instance as the editing framework hands it over: identifier,
    type name and attribute map. *)
Record BlockInstance : Type := {
  clientId : jsstring;
  name : jsstring;
  attributes : gmap jsstring JsValue;
}.

(** Modelled from the spec: the class [BlockValidationResult] of
    [core/validation]. Its constructor stores its arguments in order:
    subject identifier, subject kind, status, presence and, when given, the
    message. *)
Record BlockValidationResult : Type := {
  subjectId : jsstring;
  subjectKind : jsstring;
  status : BlockValidation;
  presence : option BlockPresence;
  message : option jsstring;
}.

(** Modelled from the spec: the static factory [BlockValidationResult.Valid]
    of [core/validation]. It reports the given block as valid; a valid result
    carries no message, and the spec names no presence level for it. *)
Definition ValidResult (blockInstance : BlockInstance) : BlockValidationResult :=
  {| subjectId := clientId blockInstance;
     subjectKind := name blockInstance;
     status := Valid;
     presence := None;
     message := None |}.

(** The invariant of the protocol: no message on a valid result; a
    non-empty message and a presence level on every other one. *)
Definition wellFormed (r : BlockValidationResult) : Prop :=
  match status r with
  | Valid => message r = None
  | _ => (∃ m, message r = Some m ∧ m ≠ []) ∧ (∃ p, presence r = Some p)
  end.

End Validation.

(** ** Localisation services *)

Module I18n.

(** The fragment of [sprintf] the templates of these files use: [%s] takes
    the next argument, [%%] is a percent sign, every other code unit is
    copied. The scan fails on a placeholder outside this fragment: the
    library also fills numbered, named, padded and typed placeholders
    ([%1$s], [%(name)s], [%5s], [%d]), which are not modelled. *)
Fixpoint format (template : jsstring) (args : list jsstring) : option jsstring :=
  match template with
  | [] => Some []
  | c :: rest =>
      if (c =? 37)%N then
        match rest with
        | d :: rest' =>
            if (d =? 115)%N then
              match args with
              | a :: args' => (a ++.) <$> format rest' args'
              | [] => (js "undefined" ++.) <$> format rest' []
              end
            else if (d =? 37)%N then (37%N ::.) <$> format rest' args
            else None
        | [] => None
        end
      else (c ::.) <$> format rest args
  end.

(** [sprintf] of [@wordpress/i18n] on templates of the fragment; a
    template on which the scan fails is returned as it is, which is what the
    library does with a template it cannot format, and not what it does with
    the placeholders left out above. The messages stated below are those of
    templates within the fragment. *)
Definition sprintf (template : jsstring) (args : list jsstring) : jsstring :=
  default template (format template args).

End I18n.

(** ** The Title instruction *)

Module Title.
Import Validation I18n.

Inductive Tags : Type :=
| TagList (tags : list jsstring)
| TagRecord (tags : gmap jsstring jsstring).

(** The [options] of the instruction. *)
Record Options : Type := {
  tags : Tags;
  defaultHeadingLevel : spec_float;
  name : jsstring;
  fieldName : jsstring;
  class : jsstring;
  default : jsstring;
  placeholder : jsstring;
  keepPlaceholderOnFocus : option bool;
  multiline : bool;
  label : jsstring;
  value : jsstring;
  required : option bool;
}.

Record Title : Type := { options : Options }.

(** A method call on a block instance: it may read and write the instance it
    was handed, and it ends with a value or with a throw. *)
Definition M (A : Type) : Type :=
  BlockInstance → Completion A * BlockInstance.

#[export] Instance M_ret : MRet M := λ A a b, (Normal a, b).
#[export] Instance M_bind : MBind M := λ A B f m b,
  match m b with
  | (Normal a, b') => f a b'
  | (Throw e, b') => (Throw e, b')
  end.

(** The instance the method was called on. *)
Definition blockInstance : M BlockInstance := λ b, (Normal b, b).

(** A call that touches no block instance. *)
Definition call {A} (c : Completion A) : M A := λ b, (c, b).

Definition templateText : jsstring := js "%s has been left empty.".
Definition textDomain : jsstring := js "yoast-schema-blocks".

Section Validate.

(** The translation lookup [__] of [@wordpress/i18n]: text and text domain
    to the text of the active locale. *)
Variable translate : jsstring → jsstring → jsstring.

(** [validate( blockInstance )]. *)
Definition validate (this : Title) : M BlockValidationResult :=
  title ← (b ← blockInstance;
           mret (getProperty (attributes b) (name (options this))));
  test ← (if ToBoolean title then call (callTrim title) else mret title);
  if ToBoolean test then
    b ← blockInstance; mret (ValidResult b)
  else
    b ← blockInstance;
    mret {| subjectId := clientId b;
            subjectKind := Validation.name b;
            status := MissingRequiredAttribute;
            presence := Some Required;
            message := Some (sprintf (translate templateText textDomain)
                                     [fieldName (options this)]) |}.

End Validate.

(** [renderable()]. *)
Definition renderable (this : Title) : bool := false.

(** The classes an instruction registry can hold: [Title], and the classes
    that other files register. *)
Inductive InstructionClass : Type :=
| TitleClass
| ForeignClass (tag : jsstring).

(** Modelled from the spec: [BlockInstruction.register] of
    [core/blocks/BlockInstruction], which binds a key to an instruction class
    in the framework's registry, a global mutable map. *)
Definition register (key : jsstring) (instruction : InstructionClass)
    (registry : gmap jsstring InstructionClass) : gmap jsstring InstructionClass :=
  <[key := instruction]> registry.

(** What loading the file does to the registry: its one top-level statement,
    [BlockInstruction.register( "title", Title )]. *)
Definition load (registry : gmap jsstring InstructionClass) :
    gmap jsstring InstructionClass :=
  register (js "title") TitleClass registry.

End Title.

(** ** The component gallery *)

Module Gallery.

(** The demo widgets the catalog mounts. *)
Inductive Widget : Type :=
| SnippetEditor
| Wizard
| Loader
| ContentAnalysis
| DashboardWidget
| HelpCenterWrapper
| UIControlsWrapper
| KeywordExample
| SidebarCollapsibleWrapper
| KeywordSuggestionsWrapper
| ButtonsWrapper
| SvgIconsWrapper
| ComponentsExample.

Record Config : Type := {
  id : jsstring;
  name : jsstring;
  component : Widget;
}.

(** The static catalog [components]. *)
Definition components : list Config :=
  [ {| id := js "snippet-preview"; name := js "Snippet preview"; component := SnippetEditor |};
    {| id := js "wizard"; name := js "Wizard"; component := Wizard |};
    {| id := js "loader"; name := js "Loader"; component := Loader |};
    {| id := js "content-analysis"; name := js "Content Analysis"; component := ContentAnalysis |};
    {| id := js "dashboard-widget"; name := js "Dashboard Widget"; component := DashboardWidget |};
    {| id := js "help-center"; name := js "Help center"; component := HelpCenterWrapper |};
    {| id := js "ui-controls"; name := js "UI Controls"; component := UIControlsWrapper |};
    {| id := js "keyword-example"; name := js "Keyword"; component := KeywordExample |};
    {| id := js "sidebar-collapsible"; name := js "Collapsibles"; component := SidebarCollapsibleWrapper |};
    {| id := js "keyword-suggestions"; name := js "Keyword suggestions"; component := KeywordSuggestionsWrapper |};
    {| id := js "buttons"; name := js "Buttons"; component := ButtonsWrapper |};
    {| id := js "svg-icons"; name := js "SVG Icons"; component := SvgIconsWrapper |};
    {| id := js "components-example"; name := js "Components"; component := ComponentsExample |} ].

(** [this.state]. *)
Record State : Type := {
  activeComponent : jsstring;
  isRtl : bool;
}.

(** The state the constructor sets. *)
Definition constructor : State :=
  {| activeComponent := js "snippet-preview"; isRtl := false |}.

(** The object handed to [setState]: the members it names are replaced, the
    others are kept. *)
Record Patch : Type := {
  setActiveComponent : option jsstring;
  setIsRtl : option bool;
}.

Definition setState (patch : Patch) (state : State) : State :=
  {| activeComponent := default (activeComponent state) (setActiveComponent patch);
     isRtl := default (isRtl state) (setIsRtl patch) |}.

(** The loop of [getContent] over the entries from the current index on:
    the widget of the first entry whose id is the active one, and undefined
    (here [None]) when the loop runs off the end. *)
Fixpoint getContentFrom (entries : list Config) (active : jsstring) : option Widget :=
  match entries with
  | [] => None
  | entry :: rest =>
      if decide (active = id entry) then Some (component entry)
      else getContentFrom rest active
  end.

(** [getContent()]. *)
Definition getContent (state : State) : option Widget :=
  getContentFrom components (activeComponent state).

(** [navigate( activeComponent )]. *)
Definition navigate (activeComponent : jsstring) (state : State) : State :=
  setState {| setActiveComponent := Some activeComponent; setIsRtl := None |} state.

(** [changeLanguageDirection()]. *)
Definition changeLanguageDirection (state : State) : State :=
  setState {| setActiveComponent := None; setIsRtl := Some (negb (isRtl state)) |} state.

(** What a click can trigger. *)
Inductive Handler : Type :=
| Navigate (id : jsstring)
| ChangeLanguageDirection.

Record Button : Type := {
  style : list (jsstring * jsstring);
  key : option jsstring;
  onClick : Handler;
  title : jsstring;
}.

(** [renderButton( id, title )]. *)
Definition renderButton (state : State) (id title : jsstring) : Button :=
  let isActive := bool_decide (activeComponent state = id) in
  {| style := if isActive then
                [ (js "backgroundColor", js "#006671");
                  (js "color", js "#FFF");
                  (js "borderRadius", js "5px");
                  (js "border", js "1px solid white");
                  (js "outline", js "none") ]
              else [];
     key := Some id;
     onClick := Navigate id;
     title := title |}.

(** The buttons of [getMenu()]. *)
Definition getMenu (state : State) : list Button :=
  (λ config, renderButton state (id config) (name config)) <$> components.

(** [renderLanguageDirectionButton()]. *)
Definition renderLanguageDirectionButton : Button :=
  {| style := []; key := None; onClick := ChangeLanguageDirection;
     title := js "Change language direction" |}.

(** What [render()] returns: the locale of the provider, the theme, the
    menu, the direction button and the content. *)
Record Rendered : Type := {
  locale : jsstring;
  theme_isRtl : bool;
  menu : list Button;
  languageDirection : Button;
  content : option Widget;
}.

Definition render (state : State) : Rendered :=
  {| locale := js "en";
     theme_isRtl := isRtl state;
     menu := getMenu state;
     languageDirection := renderLanguageDirectionButton;
     content := getContent state |}.

(** The attributes of [document.documentElement]. *)
Abbreviation Document := (gmap jsstring jsstring).

Definition setAttribute (attribute value : jsstring) (document : Document) : Document :=
  <[attribute := value]> document.

Definition getAttribute (attribute : jsstring) (document : Document) : option jsstring :=
  document !! attribute.

(** [componentDidUpdate( prevProps, prevState )]. *)
Definition componentDidUpdate (prevState state : State) (document : Document) : Document :=
  if negb (eqb (isRtl prevState) (isRtl state)) then
    setAttribute (js "dir") (if isRtl state then js "rtl" else js "ltr") document
  else document.

(** One update of the mounted component: the handler sets the state, the
    component renders again and [componentDidUpdate] runs with the state of
    before. *)
Definition update (handler : Handler) (world : State * Document) : State * Document :=
  let (prevState, document) := world in
  let state :=
    match handler with
    | Navigate id => navigate id prevState
    | ChangeLanguageDirection => changeLanguageDirection prevState
    end in
  (state, componentDidUpdate prevState state document).

(** The toggle-direction operation: a click on the direction button. *)
Definition toggleDirection (world : State * Document) : State * Document :=
  update ChangeLanguageDirection world.

(** The [dir] attribute of the document. *)
Definition documentDir (world : State * Document) : option jsstring :=
  getAttribute (js "dir") world.2.

End Gallery.

(** ** The search result list *)

Module SearchResults.

(** A result record. *)
Record Post : Type := {
  objectID : jsstring;
  permalink : jsstring;
  post_title : jsstring;
}.

Record Props : Type := {
  searchString : jsstring;
  results : list Post;
}.

Definition defaultProps : Props := {| searchString := []; results := [] |}.

(** The message descriptors of [messages]. *)
Record MessageDescriptor : Type := {
  id : jsstring;
  defaultMessage : jsstring;
}.

Definition noResultsText : MessageDescriptor :=
  {| id := js "searchresults.noresultstext";
     defaultMessage := js "No results found." |}.

Definition foundResultsText : MessageDescriptor :=
  {| id := js "searchresults.foundresultstext";
     defaultMessage :=
       js "Found {resultsCount} { resultsCount, plural, one {result} other {results} }" |}.

(** The props of one [SearchResult] row; [handler] is the index the click
    handler passes to [props.handler]. *)
Record SearchResult : Type := {
  height : jsstring;
  key : jsstring;
  post : Post;
  handler : nat;
}.

Inductive Element : Type :=
| NoResults (text : jsstring)
| SearchResultsWrapper (rows : list SearchResult).

(** A render pass: it returns a value and appends what it hands to
    [a11ySpeak] to the announcements made so far. *)
Definition Speak (A : Type) : Type := list jsstring → A * list jsstring.

#[export] Instance Speak_ret : MRet Speak := λ A a spoken, (a, spoken).
#[export] Instance Speak_bind : MBind Speak := λ A B f m spoken,
  let (a, spoken') := m spoken in f a spoken'.

Definition a11ySpeak (text : jsstring) : Speak unit :=
  λ spoken, (tt, spoken ++ [text]).

Section Render.

(** [intl.formatMessage]: a descriptor and its values to the localized
    text. *)
Variable formatMessage : MessageDescriptor → list (jsstring * nat) → jsstring.

(** [renderNoResultsFound()]. *)
Definition renderNoResultsFound : Speak Element :=
  let noResultsText := formatMessage noResultsText [] in
  _ ← a11ySpeak noResultsText;
  mret (NoResults noResultsText).

(** [handleZeroResults()]; [None] is null. *)
Definition handleZeroResults (props : Props) : Speak (option Element) :=
  if negb (bool_decide (searchString props = [])) then
    element ← renderNoResultsFound; mret (Some element)
  else mret None.

(** [resultsToSearchItem( results )]. *)
Definition resultsToSearchItem (results : list Post) : list SearchResult :=
  imap (λ index result,
          {| height := js "32px"; key := objectID result;
             post := result; handler := index |}) results.

(** [render()]. *)
Definition render (props : Props) : Speak (option Element) :=
  let resultsCount := length (results props) in
  if (resultsCount <=? 0)%nat then handleZeroResults props
  else
    let foundResultsText :=
      formatMessage foundResultsText [(js "resultsCount", resultsCount)] in
    _ ← a11ySpeak foundResultsText;
    mret (Some (SearchResultsWrapper (resultsToSearchItem (results props)))).

End Render.

End SearchResults.

(** ** Notions the properties are stated with *)

Module Spec.
Import Validation Title.

(** A string made of whitespace only (the empty string included). *)
Definition blank (s : jsstring) : bool := forallb isWhiteSpace s.

(** The validation outcome of a call: status, presence and message of the
    result, or the throw. *)
Definition outcome (c : Completion BlockValidationResult) :
    Completion (BlockValidation * option BlockPresence * option jsstring) :=
  match c with
  | Normal r => Normal (status r, presence r, message r)
  | Throw e => Throw e
  end.

(** The attribute [validate] looks at. *)
Definition titleAttribute (this : Title) (b : BlockInstance) : option JsValue :=
  attributes b !! Title.name (options this).

(** The value [validate] reads from it: undefined when the key is missing. *)
Definition titleValue (this : Title) (b : BlockInstance) : JsValue :=
  getProperty (attributes b) (Title.name (options this)).

(** The result for a title that was left empty, with [text] the localized
    template. *)
Definition leftEmpty (text : jsstring) (this : Title) (b : BlockInstance) :
    BlockValidationResult :=
  {| subjectId := clientId b;
     subjectKind := Validation.name b;
     status := MissingRequiredAttribute;
     presence := Some Required;
     message := Some (I18n.sprintf text [fieldName (options this)]) |}.

(** The template in the active locale. *)
Definition localizedTemplate (translate : jsstring → jsstring → jsstring) : jsstring :=
  translate templateText textDomain.

(** Text without a percent sign: [sprintf] copies it as it is. *)
Definition literal (s : jsstring) : bool := forallb (λ c, negb (c =? 37)%N) s.

(** The locale of the source texts: [__] finds no translation and answers
    with the text it was given. *)
Definition sourceLocale (text domain : jsstring) : jsstring := text.

(** Sample inputs. *)
Definition sampleOptions : Options :=
  {| tags := TagList [js "h1"; js "h2"]; defaultHeadingLevel := S754_finite false 2 0;
     Title.name := js "title"; fieldName := js "Title"; class := js "yoast-title";
     Title.default := []; placeholder := js "Enter a title"; keepPlaceholderOnFocus := None;
     multiline := false; label := js "Title"; value := []; required := Some true |}.

Definition sampleTitle : Title := {| options := sampleOptions |}.

Definition sampleBlock (attrs : list (jsstring * JsValue)) : BlockInstance :=
  {| clientId := js "b1f2"; Validation.name := js "yoast/recipe";
     attributes := list_to_map attrs |}.

Definition helloBlock : BlockInstance :=
  sampleBlock [(js "title", JsString (js "Hello")); (js "level", JsNumber (S754_finite false 2 0))].

Definition helloBlock' : BlockInstance :=
  sampleBlock [(js "title", JsString (js "Hello")); (js "summary", JsString [])].

Definition blankBlock : BlockInstance :=
  sampleBlock [(js "title", JsString (js "  "))].


(** A gallery in a page whose root element has no attribute yet. *)
Definition freshGallery : Gallery.State * Gallery.Document :=
  (Gallery.constructor, ∅).

(** The formatter of an English provider without translations, on the two
    messages of the list: the no-results message is its default text, and
    the found-results message is its default pattern filled in, the count in
    decimal and the plural form chosen for it. *)
Definition defaultMessages (descriptor : SearchResults.MessageDescriptor)
    (values : list (jsstring * nat)) : jsstring :=
  match values with
  | (_, count) :: _ =>
      if bool_decide (SearchResults.id descriptor
                      = SearchResults.id SearchResults.foundResultsText) then
        js "Found " ++ js (NilZero.string_of_uint (Nat.to_uint count))
          ++ (if (count =? 1)%nat then js " result" else js " results")
      else SearchResults.defaultMessage descriptor
  | [] => SearchResults.defaultMessage descriptor
  end.

Definition emptySearch : SearchResults.Props :=
  {| SearchResults.searchString := js "seo"; SearchResults.results := [] |}.

End Spec.

(** ** Sessions of the gallery *)

Module Session.
Import Gallery.

(** A click on a button runs its [onClick] handler, and the component
    updates. *)
Definition click (button : Button) (world : State * Document) : State * Document :=
  update (onClick button) world.

(** A session: one update per handler, the oldest first. *)
Definition run (handlers : list Handler) (world : State * Document) : State * Document :=
  foldl (λ w handler, update handler w) world handlers.

Definition isToggle (handler : Handler) : bool :=
  match handler with
  | ChangeLanguageDirection => true
  | Navigate _ => false
  end.

(** The number of direction toggles of a session. *)
Definition toggles (handlers : list Handler) : nat :=
  length (filter (λ handler, isToggle handler = true) handlers).

(** The value [componentDidUpdate] writes for a direction flag. *)
Definition direction (rtl : bool) : jsstring :=
  if rtl then js "rtl" else js "ltr".

(** Whether a button carries a style, as the button of the active entry
    does. *)
Definition highlighted (button : Button) : bool :=
  match style button with
  | [] => false
  | _ :: _ => true
  end.

End Session.

(** ** The rows of the search result list *)

Module Rows.

(** What [SearchResult( props )] renders: a row that receives the props, with
    a link to the permalink of the post around its title. [onClick] is the
    handler of the props. *)
Record RowElement : Type := {
  rowProps : SearchResults.SearchResult;
  href : jsstring;
  onClick : nat;
  title : jsstring;
}.

(** [SearchResult( props )]. *)
Definition SearchResult (props : SearchResults.SearchResult) : RowElement :=
  let post := SearchResults.post props in
  {| rowProps := props;
     href := SearchResults.permalink post;
     onClick := SearchResults.handler props;
     title := SearchResults.post_title post |}.

(** The rows a rendered element shows on the page. *)
Definition rows (element : option SearchResults.Element) : list RowElement :=
  match element with
  | Some (SearchResults.SearchResultsWrapper items) => SearchResult <$> items
  | _ => []
  end.

(** The announcements after [passes] render passes with the same props. *)
Definition rerender (formatMessage : SearchResults.MessageDescriptor → list (jsstring * nat) → jsstring)
    (props : SearchResults.Props) (passes : nat) (spoken : list jsstring) : list jsstring :=
  Nat.iter passes (λ said, (SearchResults.render formatMessage props said).2) spoken.

End Rows.

(** ** More sample inputs *)

Module Samples.
Import Validation Title Spec.

(** A second instruction with the key and label of [sampleTitle] and other
    options. *)
Definition plainTitle : Title :=
  {| options :=
       {| tags := TagRecord ∅; defaultHeadingLevel := S754_finite false 3 0;
          Title.name := js "title"; fieldName := js "Title"; class := [];
          Title.default := js "Untitled"; placeholder := []; keepPlaceholderOnFocus := Some true;
          multiline := true; label := js "Heading"; value := js "x"; required := None |} |}.

Definition nullBlock : BlockInstance :=
  sampleBlock [(js "title", JsNull)].



Definition paddedBlock : BlockInstance :=
  sampleBlock [(js "title", JsString (js "  Hello "))].

(** A locale that translates every text to one Dutch template. *)
Definition dutchLocale (text domain : jsstring) : jsstring :=
  js "Het veld %s is leeg.".

Definition posts : list SearchResults.Post :=
  [ {| SearchResults.objectID := js "p7"; SearchResults.permalink := js "https://example.org/a";
       SearchResults.post_title := js "Alpha" |};
    {| SearchResults.objectID := js "p9"; SearchResults.permalink := js "https://example.org/b";
       SearchResults.post_title := js "Beta" |} ].

Definition foundSearch : SearchResults.Props :=
  {| SearchResults.searchString := js "seo"; SearchResults.results := posts |}.

End Samples.

(** * Properties *)

(** ** Trimming *)

Section Trimming.
Import Spec.

Lemma trimStart_nil (s : jsstring) : trimStart s = [] ↔ blank s = true.
Proof.
  induction s as [|c s IH]; simpl; [done|].
  destruct (isWhiteSpace c); simpl; [exact IH|].
  split; discriminate.
Qed.

(** What [trimStart] leaves does not start with whitespace. *)
Lemma trimStart_head (s : jsstring) c rest :
  trimStart s = c :: rest → isWhiteSpace c = false.
Proof.
  induction s as [|d s IH]; simpl; [discriminate|].
  destruct (isWhiteSpace d) eqn:Hd; [exact IH|].
  intros [= <- <-]. exact Hd.
Qed.

Lemma blank_app (s t : jsstring) : blank (s ++ t) = blank s && blank t.
Proof. apply forallb_app. Qed.

Lemma blank_rev (s : jsstring) : blank (rev s) = blank s.
Proof.
  induction s as [|c s IH]; simpl; [done|].
  rewrite blank_app, IH. simpl. rewrite andb_true_r. apply andb_comm.
Qed.

(** [trim] answers with the empty string exactly on the blank strings. *)
Lemma trim_nil (s : jsstring) : trim s = [] ↔ blank s = true.
Proof.
  unfold trim, trimEnd. split.
  - intros H. apply (f_equal (@rev N)) in H. rewrite rev_involutive in H.
    simpl in H. apply trimStart_nil in H. rewrite blank_rev in H.
    destruct (trimStart s) as [|c rest] eqn:Hs; [by apply trimStart_nil|].
    apply trimStart_head in Hs. simpl in H. by rewrite Hs in H.
  - intros H. apply trimStart_nil in H. by rewrite H.
Qed.

Lemma ToBoolean_trim (s : jsstring) :
  ToBoolean (JsString (trim s)) = negb (blank s).
Proof.
  destruct (blank s) eqn:Hb; simpl.
  - apply trim_nil in Hb. by rewrite Hb.
  - destruct (trim s) eqn:Ht; [|done].
    apply trim_nil in Ht. congruence.
Qed.

Lemma blank_false (s : jsstring) :
  blank s = false ↔ ∃ c, c ∈ s ∧ isWhiteSpace c = false.
Proof.
  unfold blank. split.
  - intros H. induction s as [|c s IH]; simpl in H; [discriminate|].
    destruct (isWhiteSpace c) eqn:Hc.
    + destruct (IH H) as (d & Hd & Hw). exists d. split; [by right|done].
    + exists c. split; [by left|done].
  - intros (c & Hc & Hw). apply not_true_iff_false. intros Hall.
    rewrite forallb_forall in Hall. apply list_elem_of_In in Hc.
    specialize (Hall c Hc). congruence.
Qed.

End Trimming.

(** ** The Title instruction *)

Section TitleProperties.
Import Validation I18n Title Spec.

Variable translate : jsstring → jsstring → jsstring.

(** [validate] as one case analysis on the value it reads. *)
Lemma validate_unfold (this : Title) (b : BlockInstance) :
  validate translate this b =
    match (if ToBoolean (titleValue this b) then callTrim (titleValue this b)
           else Normal (titleValue this b)) with
    | Normal test =>
        (Normal (if ToBoolean test then ValidResult b
                 else leftEmpty (localizedTemplate translate) this b), b)
    | Throw e => (Throw e, b)
    end.
Proof.
  unfold validate, titleValue, mbind, M_bind, mret, M_ret, blockInstance, call.
  destruct (ToBoolean (getProperty _ _)).
  - destruct (callTrim _) as [test|e]; [|reflexivity].
    destruct (ToBoolean test); reflexivity.
  - destruct (ToBoolean (getProperty _ _)); reflexivity.
Qed.

Lemma titleValue_bound (this : Title) (b : BlockInstance) (v : JsValue) :
  titleAttribute this b = Some v → titleValue this b = v.
Proof. unfold titleAttribute, titleValue, getProperty. by intros ->. Qed.



(** A string attribute: valid unless the string is blank. *)
Lemma validate_string (this : Title) (b : BlockInstance) (s : jsstring) :
  titleValue this b = JsString s →
  validate translate this b =
    (Normal (if blank s then leftEmpty (localizedTemplate translate) this b else ValidResult b), b).
Proof.
  intros H. rewrite validate_unfold, H.
  destruct s as [|c s]; [reflexivity|]. simpl ToBoolean. cbv iota.
  unfold callTrim. rewrite ToBoolean_trim.
  destruct (blank (c :: s)); reflexivity.
Qed.

(** A missing or falsy attribute: [trim] is not called. *)
Lemma validate_falsy (this : Title) (b : BlockInstance) :
  ToBoolean (titleValue this b) = false →
  validate translate this b = (Normal (leftEmpty (localizedTemplate translate) this b), b).
Proof. intros H. by rewrite validate_unfold, !H. Qed.


Lemma format_literal (s rest : jsstring) (args : list jsstring) :
  literal s = true → format (s ++ rest) args = (s ++.) <$> format rest args.
Proof.
  induction s as [|c s IH]; simpl; intros Hlit.
  - by destruct (format rest args).
  - apply andb_true_iff in Hlit as [Hc Hs]. apply negb_true_iff in Hc.
    rewrite Hc, (IH Hs). by destruct (format rest args).
Qed.

(** A template with literal text around one [%s]: the label takes the place
    of the placeholder. *)
Lemma sprintf_placeholder (pre post label : jsstring) :
  literal pre = true → literal post = true →
  sprintf (pre ++ js "%s" ++ post) [label] = pre ++ label ++ post.
Proof.
  intros Hpre Hpost. unfold sprintf.
  rewrite (format_literal pre _ _ Hpre). simpl.
  pose proof (format_literal post [] [] Hpost) as Hfmt.
  rewrite app_nil_r in Hfmt. rewrite Hfmt. simpl. by rewrite app_nil_r.
Qed.



(** C1. When the attribute map binds the configured key to a string with at
    least one character that is not whitespace, [validate] returns the valid
    result for the block: its status is [Valid]. Whitespace is what [trim]
    strips. *)
Theorem validate_nonblank_is_valid (this : Title) (b : BlockInstance) (s : jsstring) :
  titleAttribute this b = Some (JsString s) →
  (∃ c, c ∈ s ∧ isWhiteSpace c = false) →
  validate translate this b = (Normal (ValidResult b), b)
  ∧ status (ValidResult b) = Valid.
Proof.
  intros Hattr Hc. split; [|reflexivity].
  apply titleValue_bound in Hattr. apply blank_false in Hc.
  by rewrite (validate_string this b s Hattr), Hc.
Qed.


(** C3. Every result [validate] produces keeps the invariant of the
    protocol: a [Valid] result has no message, any other result has a
    non-empty message and a presence level. The localized template is one
    [%s] placeholder within literal text that is not empty, as the source
    template is. *)
Theorem validate_result_wellFormed (this : Title) (b b' : BlockInstance)
    (r : BlockValidationResult) (pre post : jsstring) :
  localizedTemplate translate = pre ++ js "%s" ++ post →
  literal pre = true → literal post = true → pre ++ post ≠ [] →
  validate translate this b = (Normal r, b') →
  wellFormed r.
Proof.
  intros Htpl Hpre Hpost Htext. rewrite validate_unfold.
  assert (wellFormed (leftEmpty (localizedTemplate translate) this b)) as Hleft.
  { unfold wellFormed; simpl. split; [|by eexists].
    eexists. split; [reflexivity|].
    rewrite Htpl, sprintf_placeholder by done. intros Hnil.
    apply app_eq_nil in Hnil as [-> Hnil].
    apply app_eq_nil in Hnil as [_ ->]. by apply Htext. }
  destruct (if ToBoolean _ then _ else _) as [test|e]; [|discriminate].
  intros [= <- _]. by destruct (ToBoolean test).
Qed.

(** C4. [validate] depends on the attribute map through the configured key
    only, and writes nothing: two block instances whose maps agree on that
    key get the same outcome (status, presence and message, or the same
    throw), and the same result when they also share identifier and type
    name; each instance is after the call what it was before. *)
Theorem validate_noninterference (this : Title) (b1 b2 : BlockInstance) :
  titleAttribute this b1 = titleAttribute this b2 →
  outcome (validate translate this b1).1 = outcome (validate translate this b2).1
  ∧ (clientId b1 = clientId b2 → Validation.name b1 = Validation.name b2 →
     (validate translate this b1).1 = (validate translate this b2).1)
  ∧ (validate translate this b1).2 = b1
  ∧ (validate translate this b2).2 = b2.
Proof.
  intros Hagree.
  assert (titleValue this b1 = titleValue this b2) as Hv.
  { unfold titleAttribute in Hagree. unfold titleValue, getProperty.
    by rewrite Hagree. }
  rewrite !validate_unfold, Hv.
  destruct (if ToBoolean _ then _ else _) as [test|e]; [|done].
  repeat split; [by destruct (ToBoolean test)|].
  intros Hid Hname. simpl. unfold ValidResult, leftEmpty.
  by rewrite Hid, Hname.
Qed.

(** C8. The instruction is never rendered, and loading the file registers
    the class under the key "title" and changes no other key of the
    registry. *)
Theorem title_not_renderable_and_registered :
  (∀ this : Title, renderable this = false)
  ∧ (∀ registry : gmap jsstring InstructionClass,
       load registry !! js "title" = Some TitleClass
       ∧ delete (js "title") (load registry) = delete (js "title") registry).
Proof.
  split; [done|]. intros registry. unfold load, register. split.
  - apply lookup_insert_eq.
  - apply delete_insert_eq.
Qed.


End TitleProperties.

Section TitleWitnesses.
Import Validation I18n Title Spec Samples.

Lemma validate_nonblank_is_valid_witness :
  titleAttribute sampleTitle helloBlock = Some (JsString (js "Hello"))
  ∧ validate sourceLocale sampleTitle helloBlock = (Normal (ValidResult helloBlock), helloBlock)
  ∧ status (ValidResult helloBlock) = Valid.
Proof.
  split; [reflexivity|].
  apply (validate_nonblank_is_valid sourceLocale sampleTitle helloBlock (js "Hello")).
  - reflexivity.
  - exists 72%N. split; [left|reflexivity].
Defined.



Lemma validate_result_wellFormed_witness :
  wellFormed (leftEmpty templateText sampleTitle blankBlock)
  ∧ wellFormed (ValidResult helloBlock).
Proof.
  split.
  - apply (validate_result_wellFormed sourceLocale sampleTitle blankBlock blankBlock
             _ [] (js " has been left empty."));
      [reflexivity|reflexivity|reflexivity|discriminate|reflexivity].
  - apply (validate_result_wellFormed sourceLocale sampleTitle helloBlock helloBlock
             _ [] (js " has been left empty."));
      [reflexivity|reflexivity|reflexivity|discriminate|reflexivity].
Defined.

Lemma validate_noninterference_witness :
  attributes helloBlock ≠ attributes helloBlock'
  ∧ outcome (validate sourceLocale sampleTitle helloBlock).1
    = outcome (validate sourceLocale sampleTitle helloBlock').1
  ∧ (validate sourceLocale sampleTitle helloBlock).1
    = (validate sourceLocale sampleTitle helloBlock').1
  ∧ (validate sourceLocale sampleTitle helloBlock).2 = helloBlock
  ∧ (validate sourceLocale sampleTitle helloBlock').2 = helloBlock'.
Proof.
  split.
  - intros Heq. apply (f_equal (λ m, m !! js "level")) in Heq. discriminate Heq.
  - destruct (validate_noninterference sourceLocale sampleTitle helloBlock helloBlock')
      as (Hout & Hres & Hfst & Hsnd); [reflexivity|].
    split; [exact Hout|]. split; [apply Hres; reflexivity|].
    split; [exact Hfst|exact Hsnd].
Defined.



End TitleWitnesses.

(** ** The component gallery *)

Section GalleryProperties.
Import Gallery Spec.

Lemma components_ids_NoDup : NoDup (id <$> components).
Proof. apply (bool_decide_unpack _). by vm_compute. Qed.

(** With distinct ids the loop finds the entry that carries the id. *)
Lemma getContentFrom_elem (entries : list Config) (entry : Config) :
  NoDup (id <$> entries) → entry ∈ entries →
  getContentFrom entries (id entry) = Some (component entry).
Proof.
  induction entries as [|first rest IH]; intros Hnodup Hin.
  - by apply elem_of_nil in Hin.
  - rewrite fmap_cons in Hnodup. apply list.NoDup_cons in Hnodup as [Hfresh Hnodup].
    simpl. apply elem_of_cons in Hin as [->|Hin].
    + by rewrite decide_True.
    + rewrite decide_False; [by apply IH|].
      intros Heq. apply Hfresh. rewrite <- Heq.
      by apply list_elem_of_fmap_2.
Qed.

(** An id no entry carries falls off the end of the loop. *)
Lemma getContentFrom_absent (entries : list Config) (active : jsstring) :
  (∀ entry, entry ∈ entries → id entry ≠ active) →
  getContentFrom entries active = None.
Proof.
  induction entries as [|first rest IH]; intros Habsent; [done|].
  simpl. rewrite decide_False.
  - apply IH. intros entry Hin. apply Habsent. by right.
  - intros Heq. apply (Habsent first); [by left|done].
Qed.

Lemma navigate_active (i : jsstring) (state : State) :
  activeComponent (navigate i state) = i.
Proof. reflexivity. Qed.

(** C5. After [navigate(i)] the content of the next render is the widget of
    the catalog entry whose id is [i], and it is empty when no entry has that
    id. *)
Theorem navigate_shows_entry (world : State * Document) (i : jsstring) :
  (∀ entry, entry ∈ components → id entry = i →
     content (render (update (Navigate i) world).1) = Some (component entry))
  ∧ ((∀ entry, entry ∈ components → id entry ≠ i) →
     content (render (update (Navigate i) world).1) = None).
Proof.
  destruct world as [state document]. simpl.
  unfold getContent. rewrite navigate_active. split.
  - intros entry Hin <-. apply getContentFrom_elem; [|done].
    apply components_ids_NoDup.
  - apply getContentFrom_absent.
Qed.

Lemma toggleDirection_twice (world : State * Document) :
  toggleDirection (toggleDirection world) =
    (world.1, setAttribute (js "dir") (if isRtl world.1 then js "rtl" else js "ltr")
                (setAttribute (js "dir") (if isRtl world.1 then js "ltr" else js "rtl")
                   world.2)).
Proof.
  destruct world as [[active rtl] document].
  unfold toggleDirection, update, changeLanguageDirection, componentDidUpdate, setState.
  simpl. by destruct rtl.
Qed.

(** C6, as it holds. Two toggles restore the state, and leave the [dir]
    attribute of the document at the direction of the state: "rtl" when
    [isRtl] holds and "ltr" otherwise. So the attribute is what it was before
    the first toggle whenever it then showed the direction of the state. *)
Theorem toggle_twice_dir (world : State * Document) :
  (toggleDirection (toggleDirection world)).1 = world.1
  ∧ documentDir (toggleDirection (toggleDirection world))
    = Some (if isRtl world.1 then js "rtl" else js "ltr")
  ∧ (documentDir world = Some (if isRtl world.1 then js "rtl" else js "ltr") →
     documentDir (toggleDirection (toggleDirection world)) = documentDir world).
Proof.
  rewrite toggleDirection_twice.
  assert (documentDir
            (world.1, setAttribute (js "dir") (if isRtl world.1 then js "rtl" else js "ltr")
               (setAttribute (js "dir") (if isRtl world.1 then js "ltr" else js "rtl")
                  world.2))
          = Some (if isRtl world.1 then js "rtl" else js "ltr")) as Hdir.
  { unfold documentDir, getAttribute, setAttribute. simpl. apply lookup_insert_eq. }
  split; [done|]. split; [exact Hdir|].
  intros Hsync. by rewrite Hdir, Hsync.
Qed.

(** C10. A fresh gallery has the active component "snippet-preview" and
    [isRtl] false; its first render shows the widget of the catalog entry
    named "Snippet preview" under a left-to-right theme. *)
Theorem initial_render :
  constructor = {| activeComponent := js "snippet-preview"; isRtl := false |}
  ∧ (∃ entry, entry ∈ components
       ∧ name entry = js "Snippet preview"
       ∧ content (render constructor) = Some (component entry))
  ∧ content (render constructor) = Some SnippetEditor
  ∧ theme_isRtl (render constructor) = false.
Proof.
  split; [reflexivity|]. split; [|by split].
  eexists. split; [by left|]. by split.
Qed.

End GalleryProperties.

Section GalleryWitnesses.
Import Gallery Spec.

Lemma navigate_shows_entry_witness :
  content (render (update (Navigate (js "wizard")) freshGallery).1) = Some Wizard
  ∧ content (render (update (Navigate (js "no-such-widget")) freshGallery).1) = None.
Proof.
  split.
  - destruct (navigate_shows_entry freshGallery (js "wizard")) as [Hfound _].
    apply (Hfound {| id := js "wizard"; name := js "Wizard"; component := Wizard |});
      [right; left|reflexivity].
  - destruct (navigate_shows_entry freshGallery (js "no-such-widget")) as [_ Habsent].
    apply Habsent. intros entry Hin.
    repeat (apply elem_of_cons in Hin as [->|Hin]; [discriminate|]).
    by apply elem_of_nil in Hin.
Defined.

(** C6 as stated fails: in a page whose root element has no [dir]
    attribute, two toggles leave it set to "ltr". *)
Lemma toggle_twice_counterexample :
  documentDir freshGallery = None
  ∧ documentDir (toggleDirection (toggleDirection freshGallery)) = Some (js "ltr")
  ∧ documentDir (toggleDirection (toggleDirection freshGallery)) ≠ documentDir freshGallery.
Proof. split; [reflexivity|]. split; [reflexivity|discriminate]. Qed.

Lemma toggle_twice_dir_witness :
  documentDir (toggleDirection freshGallery) = Some (js "rtl")
  ∧ documentDir (toggleDirection (toggleDirection (toggleDirection freshGallery)))
    = documentDir (toggleDirection freshGallery).
Proof.
  split; [reflexivity|].
  destruct (toggle_twice_dir (toggleDirection freshGallery)) as (_ & _ & Hsame).
  apply Hsame. reflexivity.
Defined.

End GalleryWitnesses.

(** ** The search result list *)

Section SearchResultsProperties.
Import SearchResults.

Variable formatMessage : MessageDescriptor → list (jsstring * nat) → jsstring.

(** C7. With no results and a search string that is not empty, one render
    pass returns the localized no-results message and hands exactly one
    text, that message, to the announcement service. *)
Theorem render_no_results (props : Props) (spoken : list jsstring) :
  results props = [] → searchString props ≠ [] →
  render formatMessage props spoken =
    (Some (NoResults (formatMessage noResultsText [])),
     spoken ++ [formatMessage noResultsText []]).
Proof.
  intros Hnone Hsearch. unfold render, handleZeroResults. rewrite Hnone. simpl.
  by rewrite bool_decide_false.
Qed.

End SearchResultsProperties.

Section SearchResultsWitnesses.
Import SearchResults Spec.

Lemma render_no_results_witness :
  render defaultMessages emptySearch [] =
    (Some (NoResults (js "No results found.")), [js "No results found."]).
Proof.
  apply (render_no_results defaultMessages emptySearch []); [reflexivity|discriminate].
Defined.

End SearchResultsWitnesses.

(** * Further properties *)

(** ** The Title instruction *)

Section TitleFurther.
Import Validation I18n Title Spec.

Variable translate : jsstring → jsstring → jsstring.

(** The two results [validate] can return. *)
Lemma validate_result_cases (this : Title) (b b' : BlockInstance)
    (r : BlockValidationResult) :
  validate translate this b = (Normal r, b') →
  r = ValidResult b ∨ r = leftEmpty (localizedTemplate translate) this b.
Proof.
  rewrite validate_unfold.
  destruct (if ToBoolean _ then _ else _) as [test|e]; [|discriminate].
  intros [= <- _]. destruct (ToBoolean test); [by left|by right].
Qed.


(** X2. A falsy value that is not a string (null, false, a zero, NaN) is
    treated as a title left empty: [trim] is not called, nothing is thrown,
    and the result is [MissingRequiredAttribute] with presence [Required]. *)
Theorem validate_falsy_value_is_missing (this : Title) (b : BlockInstance) (v : JsValue) :
  titleAttribute this b = Some v →
  ToBoolean v = false →
  ∃ r, validate translate this b = (Normal r, b)
       ∧ status r = MissingRequiredAttribute
       ∧ presence r = Some Required
       ∧ subjectId r = clientId b
       ∧ subjectKind r = Validation.name b.
Proof.
  intros Hattr Hfalsy. apply titleValue_bound in Hattr.
  exists (leftEmpty (localizedTemplate translate) this b).
  split; [|done]. apply validate_falsy. by rewrite Hattr.
Qed.

(** X3. Whitespace around a title does not change the outcome: a block
    whose title is [s] and a block whose title is [s] between two blank
    strings get the same status, presence and message. *)
Theorem validate_ignores_padding (this : Title) (b1 b2 : BlockInstance)
    (s pre post : jsstring) :
  titleAttribute this b1 = Some (JsString s) →
  titleAttribute this b2 = Some (JsString (pre ++ s ++ post)) →
  blank pre = true → blank post = true →
  outcome (validate translate this b1).1 = outcome (validate translate this b2).1.
Proof.
  intros H1 H2 Hpre Hpost.
  apply titleValue_bound in H1. apply titleValue_bound in H2.
  rewrite (validate_string translate this b1 s H1).
  rewrite (validate_string translate this b2 _ H2).
  rewrite !blank_app, Hpre, Hpost, andb_true_r. simpl.
  by destruct (blank s).
Qed.

(** X4. In a locale whose template is literal text around one [%s], the
    message of a result that is not valid is that text with the field label
    in the place of the placeholder. *)
Theorem validate_localized_message (this : Title) (b b' : BlockInstance)
    (r : BlockValidationResult) (pre post : jsstring) :
  localizedTemplate translate = pre ++ js "%s" ++ post →
  literal pre = true → literal post = true →
  validate translate this b = (Normal r, b') →
  status r ≠ Valid →
  message r = Some (pre ++ fieldName (options this) ++ post).
Proof.
  intros Htpl Hpre Hpost Hrun Hstatus.
  destruct (validate_result_cases this b b' r Hrun) as [->| ->]; [done|].
  simpl. by rewrite Htpl, sprintf_placeholder.
Qed.

(** X5. Of the options only [name] and [fieldName] matter: two instructions
    that agree on them validate every block alike, whatever their tags,
    heading level, placeholder, default, label, value or required flag. *)
Theorem validate_reads_two_options (this other : Title) (b : BlockInstance) :
  name (options this) = name (options other) →
  fieldName (options this) = fieldName (options other) →
  validate translate this b = validate translate other b.
Proof.
  intros Hname Hfield. rewrite !validate_unfold.
  unfold titleValue, leftEmpty. by rewrite Hname, Hfield.
Qed.

End TitleFurther.

Section TitleFurtherWitnesses.
Import Validation I18n Title Spec Samples.


Lemma validate_falsy_value_is_missing_witness :
  ∃ r, validate sourceLocale sampleTitle nullBlock = (Normal r, nullBlock)
       ∧ status r = MissingRequiredAttribute
       ∧ presence r = Some Required
       ∧ subjectId r = clientId nullBlock
       ∧ subjectKind r = Validation.name nullBlock.
Proof.
  apply (validate_falsy_value_is_missing sourceLocale sampleTitle nullBlock JsNull);
    reflexivity.
Defined.

Lemma validate_ignores_padding_witness :
  outcome (validate sourceLocale sampleTitle helloBlock).1
  = outcome (validate sourceLocale sampleTitle paddedBlock).1.
Proof.
  apply (validate_ignores_padding sourceLocale sampleTitle helloBlock paddedBlock
           (js "Hello") (js "  ") (js " ")); reflexivity.
Defined.

Lemma validate_localized_message_witness :
  message (leftEmpty (js "Het veld %s is leeg.") sampleTitle blankBlock)
  = Some (js "Het veld Title is leeg.").
Proof.
  apply (validate_localized_message dutchLocale sampleTitle blankBlock blankBlock
           _ (js "Het veld ") (js " is leeg."));
    [reflexivity|reflexivity|reflexivity|reflexivity|discriminate].
Defined.

Lemma validate_reads_two_options_witness :
  options sampleTitle ≠ options plainTitle
  ∧ validate sourceLocale sampleTitle blankBlock
    = validate sourceLocale plainTitle blankBlock.
Proof.
  split; [discriminate|].
  apply (validate_reads_two_options sourceLocale sampleTitle plainTitle blankBlock);
    reflexivity.
Defined.

End TitleFurtherWitnesses.

(** ** The component gallery *)

Section GalleryFurther.
Import Gallery Session Spec.

(** A navigation leaves the direction flag alone, so [componentDidUpdate]
    writes nothing. *)
Lemma update_navigate (i : jsstring) (state : State) (document : Document) :
  update (Navigate i) (state, document) = (navigate i state, document).
Proof.
  unfold update, componentDidUpdate. simpl.
  by destruct (isRtl state).
Qed.

(** A toggle flips the flag and writes the new direction. *)
Lemma update_toggle (state : State) (document : Document) :
  update ChangeLanguageDirection (state, document) =
    (changeLanguageDirection state,
     setAttribute (js "dir") (direction (negb (isRtl state))) document).
Proof.
  unfold update, componentDidUpdate. simpl.
  by destruct (isRtl state).
Qed.

Lemma run_snoc (handlers : list Handler) (handler : Handler) (world : State * Document) :
  run (handlers ++ [handler]) world = update handler (run handlers world).
Proof. unfold run. by rewrite foldl_app. Qed.

Lemma menu_lookup (state : State) (i : nat) :
  getMenu state !! i =
    (λ config, renderButton state (id config) (name config)) <$> components !! i.
Proof. unfold getMenu. apply list_lookup_fmap. Qed.

(** X6. Every button of the menu works: the button at the position of a
    catalog entry carries the name of the entry, and a click on it makes the
    next render show the widget of that entry, highlights that button, and
    leaves the document alone. *)
Theorem click_menu_button (world : State * Document) (i : nat) (entry : Config) :
  components !! i = Some entry →
  ∃ button,
    getMenu world.1 !! i = Some button
    ∧ title button = name entry
    ∧ content (render (click button world).1) = Some (component entry)
    ∧ (∃ button', getMenu (click button world).1 !! i = Some button'
                  ∧ highlighted button' = true)
    ∧ (click button world).2 = world.2.
Proof.
  intros Hentry. destruct world as [state document].
  exists (renderButton state (id entry) (name entry)).
  split; [by rewrite menu_lookup, Hentry|]. split; [done|].
  unfold click. simpl onClick. rewrite update_navigate. simpl.
  split; [|split; [|done]].
  - unfold getContent. rewrite navigate_active.
    apply getContentFrom_elem; [apply components_ids_NoDup|].
    by eapply list_elem_of_lookup_2.
  - eexists. split; [by rewrite menu_lookup, Hentry|].
    unfold highlighted, renderButton. simpl.
    by rewrite bool_decide_true.
Qed.

(** X7. In every state the highlighted buttons of the menu are the ones
    whose key is the active component, and there is at most one of them. *)
Theorem menu_highlights_active (state : State) :
  (∀ button, button ∈ getMenu state →
     (highlighted button = true ↔ key button = Some (activeComponent state)))
  ∧ (∀ i j first second,
       getMenu state !! i = Some first → getMenu state !! j = Some second →
       highlighted first = true → highlighted second = true → i = j).
Proof.
  assert (∀ button, button ∈ getMenu state →
            (highlighted button = true ↔ key button = Some (activeComponent state)))
    as Hactive.
  { intros button Hin. unfold getMenu in Hin.
    apply list_elem_of_fmap in Hin as (config & -> & _).
    unfold highlighted, renderButton. simpl.
    destruct (bool_decide (activeComponent state = id config)) eqn:Hdec.
    - apply bool_decide_eq_true in Hdec. by rewrite Hdec.
    - apply bool_decide_eq_false in Hdec. split; [discriminate|].
      intros [= Heq]. by destruct Hdec. }
  split; [exact Hactive|].
  intros i j first second Hi Hj Hfirst Hsecond.
  apply Hactive in Hfirst; [|by eapply list_elem_of_lookup_2].
  apply Hactive in Hsecond; [|by eapply list_elem_of_lookup_2].
  rewrite menu_lookup in Hi, Hj.
  destruct (components !! i) as [ci|] eqn:Hci; [|discriminate].
  destruct (components !! j) as [cj|] eqn:Hcj; [|discriminate].
  injection Hi as <-. injection Hj as <-. simpl in Hfirst, Hsecond.
  injection Hfirst as Hfirst. injection Hsecond as Hsecond.
  apply (NoDup_lookup (id <$> components) i j (activeComponent state)).
  - apply components_ids_NoDup.
  - rewrite list_lookup_fmap, Hci. simpl. by rewrite Hfirst.
  - rewrite list_lookup_fmap, Hcj. simpl. by rewrite Hsecond.
Qed.

(** X8. Navigation and the direction toggle do not interfere: in either
    order they lead to the same state and the same document. *)
Theorem navigate_toggle_commute (i : jsstring) (world : State * Document) :
  update (Navigate i) (toggleDirection world)
  = toggleDirection (update (Navigate i) world).
Proof.
  destruct world as [state document]. unfold toggleDirection.
  by rewrite update_toggle, !update_navigate, update_toggle.
Qed.

(** X9. Once a session has toggled the direction, the [dir] attribute of
    the document shows the direction of the state, whatever else the session
    did before or after. *)
Theorem run_dir_in_sync (handlers : list Handler) (world : State * Document) :
  ChangeLanguageDirection ∈ handlers →
  documentDir (run handlers world) = Some (direction (isRtl (run handlers world).1)).
Proof.
  induction handlers as [|handler handlers IH] using rev_ind; intros Hin.
  - by apply elem_of_nil in Hin.
  - rewrite run_snoc. destruct (run handlers world) as [state document] eqn:Hrun.
    destruct handler as [i|].
    + rewrite update_navigate. apply elem_of_app in Hin as [Hin|Hin].
      * exact (IH Hin).
      * apply list_elem_of_singleton in Hin. discriminate.
    + rewrite update_toggle. unfold documentDir, getAttribute, setAttribute. simpl.
      apply lookup_insert_eq.
Qed.

(** X10. No session writes an attribute of the document other than [dir],
    and a session without a toggle writes none at all. *)
Theorem run_frame (handlers : list Handler) (world : State * Document) :
  (∀ attribute, attribute ≠ js "dir" →
     getAttribute attribute (run handlers world).2 = getAttribute attribute world.2)
  ∧ (ChangeLanguageDirection ∉ handlers → (run handlers world).2 = world.2).
Proof.
  induction handlers as [|handler handlers IH] using rev_ind; [done|].
  destruct IH as [IHother IHnone].
  rewrite run_snoc. destruct (run handlers world) as [state document] eqn:Hrun.
  destruct handler as [i|].
  - rewrite update_navigate. split; [exact IHother|].
    intros Hnot. apply IHnone. intros Hin. apply Hnot. apply elem_of_app. by left.
  - rewrite update_toggle. split.
    + intros attribute Hne. rewrite <- (IHother attribute Hne).
      unfold getAttribute, setAttribute. simpl. by apply lookup_insert_ne.
    + intros Hnot. destruct Hnot. apply elem_of_app. right. by left.
Qed.

(** X11. After a session the direction flag is the flag of the start,
    flipped when the number of toggles is odd; and the active component is
    the one of the last navigation, however many toggles followed it. *)
Theorem run_state (handlers : list Handler) (world : State * Document) :
  isRtl (run handlers world).1 = xorb (isRtl world.1) (Nat.odd (toggles handlers))
  ∧ (∀ before after i,
       handlers = before ++ Navigate i :: after →
       Forall (λ handler, isToggle handler = true) after →
       activeComponent (run handlers world).1 = i).
Proof.
  split.
  - induction handlers as [|handler handlers IH] using rev_ind.
    + simpl. by rewrite xorb_false_r.
    + rewrite run_snoc. destruct (run handlers world) as [state document] eqn:Hrun.
      unfold toggles in *. rewrite list.filter_app, length_app.
      destruct handler as [i|].
      * rewrite update_navigate. simpl in *. rewrite IH.
        by rewrite Nat.add_0_r.
      * rewrite update_toggle. simpl in *. rewrite IH.
        rewrite Nat.add_1_r, Nat.odd_succ, <- Nat.negb_odd.
        by destruct (isRtl world.1), (Nat.odd _).
  - intros before after. revert handlers.
    induction after as [|handler after IH] using rev_ind; intros handlers i -> Htoggles.
    + rewrite run_snoc. destruct (run before world) as [state document].
      by rewrite update_navigate.
    + apply Forall_app in Htoggles as [Hafter Hlast].
      apply list.Forall_cons in Hlast as [Hlast _]. destruct handler; [discriminate|].
      rewrite app_comm_cons, app_assoc, run_snoc.
      specialize (IH _ i eq_refl Hafter).
      destruct (run (before ++ Navigate i :: after) world) as [state document].
      rewrite update_toggle. exact IH.
Qed.

End GalleryFurther.

Section GalleryFurtherWitnesses.
Import Gallery Session Spec.

Lemma click_menu_button_witness :
  ∃ button,
    getMenu freshGallery.1 !! 2%nat = Some button
    ∧ title button = js "Loader"
    ∧ content (render (click button freshGallery).1) = Some Loader
    ∧ (∃ button', getMenu (click button freshGallery).1 !! 2%nat = Some button'
                  ∧ highlighted button' = true)
    ∧ (click button freshGallery).2 = freshGallery.2.
Proof.
  apply (click_menu_button freshGallery 2
           {| id := js "loader"; name := js "Loader"; component := Loader |}).
  reflexivity.
Defined.

Lemma menu_highlights_active_witness :
  key (renderButton constructor (js "snippet-preview") (js "Snippet preview"))
    = Some (activeComponent constructor)
  ∧ 0%nat = 0%nat.
Proof.
  destruct (menu_highlights_active constructor) as [Hactive Hone].
  split.
  - apply (Hactive (renderButton constructor (js "snippet-preview") (js "Snippet preview")));
      [left|reflexivity].
  - apply (Hone 0%nat 0%nat
             (renderButton constructor (js "snippet-preview") (js "Snippet preview"))
             (renderButton constructor (js "snippet-preview") (js "Snippet preview")));
      reflexivity.
Defined.

Lemma run_dir_in_sync_witness :
  documentDir (run [Navigate (js "wizard"); ChangeLanguageDirection; Navigate (js "loader")]
                 freshGallery) = Some (js "rtl").
Proof.
  apply (run_dir_in_sync
           [Navigate (js "wizard"); ChangeLanguageDirection; Navigate (js "loader")]
           freshGallery).
  right. left.
Defined.

Lemma run_frame_witness :
  getAttribute (js "lang")
      (run [ChangeLanguageDirection] (constructor, {[ js "lang" := js "en" ]})).2
    = Some (js "en")
  ∧ (run [Navigate (js "wizard"); Navigate (js "loader")] freshGallery).2 = ∅.
Proof.
  split.
  - destruct (run_frame [ChangeLanguageDirection] (constructor, {[ js "lang" := js "en" ]}))
      as [Hother _].
    rewrite (Hother (js "lang")); [reflexivity|discriminate].
  - destruct (run_frame [Navigate (js "wizard"); Navigate (js "loader")] freshGallery)
      as [_ Hnone].
    apply Hnone. intros Hin.
    repeat (apply elem_of_cons in Hin as [Hin|Hin]; [discriminate|]).
    by apply elem_of_nil in Hin.
Defined.

Lemma run_state_witness :
  activeComponent
    (run [Navigate (js "wizard"); Navigate (js "loader"); ChangeLanguageDirection]
       freshGallery).1 = js "loader".
Proof.
  destruct (run_state [Navigate (js "wizard"); Navigate (js "loader"); ChangeLanguageDirection]
              freshGallery) as [_ Hlast].
  apply (Hlast [Navigate (js "wizard")] [ChangeLanguageDirection]); [reflexivity|].
  by repeat constructor.
Defined.

End GalleryFurtherWitnesses.

(** ** The search result list *)

Section SearchResultsFurther.
Import SearchResults Rows.

Variable formatMessage : MessageDescriptor → list (jsstring * nat) → jsstring.

(** A pass over props with results. *)
Lemma render_results (props : Props) (spoken : list jsstring) :
  results props ≠ [] →
  render formatMessage props spoken =
    (Some (SearchResultsWrapper (resultsToSearchItem (results props))),
     spoken ++ [formatMessage foundResultsText
                  [(js "resultsCount", length (results props))]]).
Proof.
  intros Hsome. unfold render.
  by destruct (results props).
Qed.

(** A pass over props without results and without a search string. *)
Lemma render_idle (props : Props) (spoken : list jsstring) :
  results props = [] → searchString props = [] →
  render formatMessage props spoken = (None, spoken).
Proof.
  intros Hnone Hsearch. unfold render, handleZeroResults.
  by rewrite Hnone, Hsearch.
Qed.

(** A pass over props without results and with a search string. *)
Lemma render_empty (props : Props) (spoken : list jsstring) :
  results props = [] → searchString props ≠ [] →
  render formatMessage props spoken =
    (Some (NoResults (formatMessage noResultsText [])),
     spoken ++ [formatMessage noResultsText []]).
Proof.
  intros Hnone Hsearch. unfold render, handleZeroResults. rewrite Hnone. simpl.
  by rewrite bool_decide_false.
Qed.

(** X12. A render pass returns null and announces nothing exactly when
    there are no results and the search string is empty. *)
Theorem render_silent_iff (props : Props) (spoken : list jsstring) :
  render formatMessage props spoken = (None, spoken)
  ↔ results props = [] ∧ searchString props = [].
Proof.
  split.
  - intros Hrun. destruct (results props) as [|result rest] eqn:Hresults.
    + split; [done|].
      destruct (searchString props) as [|c s] eqn:Hsearch; [done|].
      rewrite render_empty in Hrun; [discriminate|done|by rewrite Hsearch].
    + rewrite render_results in Hrun; [discriminate|by rewrite Hresults].
  - intros [Hnone Hsearch]. by apply render_idle.
Qed.

(** X13. With results, a render pass announces one text, the found-results
    message formatted with the number of results, and returns the list with
    as many rows as there are results. *)
Theorem render_found (props : Props) (spoken : list jsstring) :
  results props ≠ [] →
  ∃ element,
    render formatMessage props spoken =
      (Some element,
       spoken ++ [formatMessage foundResultsText
                    [(js "resultsCount", length (results props))]])
    ∧ length (rows (Some element)) = length (results props).
Proof.
  intros Hsome. eexists. split; [by apply render_results|].
  simpl. unfold resultsToSearchItem. by rewrite length_fmap, length_imap.
Qed.

(** X14. The rows keep the results and their order: the posts of the rows
    are the results, each row links to the permalink of its post and shows
    its title, and a click on the row at position [i] hands [i] to the
    handler of the list. *)
Theorem rows_follow_results (posts : list Post) :
  let items := SearchResult <$> resultsToSearchItem posts in
  (post ∘ rowProps) <$> items = posts
  ∧ href <$> items = permalink <$> posts
  ∧ Rows.title <$> items = post_title <$> posts
  ∧ onClick <$> items = seq 0 (length posts)
  ∧ (key ∘ rowProps) <$> items = objectID <$> posts.
Proof.
  simpl. unfold resultsToSearchItem. rewrite <- !list_fmap_compose.
  assert (∀ (A : Type) (f : SearchResults.SearchResult → A) (g : nat → Post → A) (n : nat),
            (∀ i result, f {| height := js "32px"; key := objectID result;
                              post := result; handler := n + i |} = g (n + i)%nat result) →
            f <$> imap (λ index result,
                          {| height := js "32px"; key := objectID result;
                             post := result; handler := n + index |}) posts
            = imap (λ index, g (n + index)%nat) posts) as Hfuse.
  { intros A f g n Hfg. rewrite fmap_imap. apply imap_ext. intros i x _. apply Hfg. }
  assert (∀ (A : Type) (h : Post → A) (l : list Post), imap (λ _, h) l = h <$> l) as Hconst.
  { intros A h l. induction l as [|x l IH]; [done|]. simpl.
    f_equal. exact IH. }
  assert (∀ (l : list Post) (n : nat), imap (λ i _, (n + i)%nat) l = seq n (length l)) as Hseq.
  { induction l as [|x l IH]; intros n; [done|]. simpl. rewrite Nat.add_0_r. f_equal.
    rewrite <- IH. apply imap_ext. intros i y _. simpl. lia. }
  repeat split.
  - rewrite (Hfuse _ _ (λ _ result, result) 0%nat) by done.
    rewrite Hconst. apply list_fmap_id.
  - rewrite (Hfuse _ _ (λ _ result, permalink result) 0%nat) by done. apply Hconst.
  - rewrite (Hfuse _ _ (λ _ result, post_title result) 0%nat) by done. apply Hconst.
  - rewrite (Hfuse _ _ (λ i _, i) 0%nat) by done. apply (Hseq posts 0%nat).
  - rewrite (Hfuse _ _ (λ _ result, objectID result) 0%nat) by done. apply Hconst.
Qed.

(** X15. Every render pass announces again: unless there are neither
    results nor a search string, [passes] passes over the same props add
    [passes] copies of one text to the announcements, and keep the
    announcements made before. *)
Theorem rerender_announces_each_pass (props : Props) :
  results props ≠ [] ∨ searchString props ≠ [] →
  ∃ text, ∀ passes spoken,
    rerender formatMessage props passes spoken = spoken ++ replicate passes text.
Proof.
  intros Hbusy.
  assert (∃ text, ∀ spoken, (render formatMessage props spoken).2 = spoken ++ [text])
    as [text Hpass].
  { destruct (results props) as [|result rest] eqn:Hresults.
    - destruct Hbusy as [Hbusy|Hbusy]; [done|].
      eexists. intros spoken. by rewrite render_empty.
    - eexists. intros spoken. rewrite render_results; [done|by rewrite Hresults]. }
  exists text. intros passes spoken. unfold rerender.
  induction passes as [|passes IH]; simpl.
  - by rewrite app_nil_r.
  - rewrite IH, Hpass, <- app_assoc. f_equal.
    change [text] with (replicate 1 text). rewrite <- replicate_add.
    by rewrite Nat.add_1_r.
Qed.

End SearchResultsFurther.

Section SearchResultsFurtherWitnesses.
Import SearchResults Rows Spec Samples.

Lemma render_silent_iff_witness :
  render defaultMessages defaultProps [js "Found 3 results"]
  = (None, [js "Found 3 results"]).
Proof.
  apply (render_silent_iff defaultMessages defaultProps [js "Found 3 results"]).
  split; reflexivity.
Defined.

Lemma render_found_witness :
  ∃ element,
    render defaultMessages foundSearch [] =
      (Some element,
       [js "Found 2 results"])
    ∧ length (rows (Some element)) = 2%nat.
Proof.
  apply (render_found defaultMessages foundSearch []). discriminate.
Defined.

Lemma rerender_announces_each_pass_witness :
  ∃ text, rerender defaultMessages emptySearch 2 [js "Found 3 results"]
          = [js "Found 3 results"; text; text].
Proof.
  destruct (rerender_announces_each_pass defaultMessages emptySearch) as [text Hpasses].
  - right. discriminate.
  - exists text. apply (Hpasses 2%nat [js "Found 3 results"]).
Defined.

End SearchResultsFurtherWitnesses.
